(** * Ratatouille floor projection: the PIR broadcast server and the video client

    Shallow embedding of [src/pir-server.py] (the sensor broadcast server)
    and of the [PIRClient] class of [src/video-client.py] (the decoder of
    the server's newline-delimited JSON stream).

    Modelling choices:
    - Python values read out of a JSON frame are [json] values; numbers are
      kept as exact rationals ([Q]).
    - The text received by the client is a Rocq [string]; each character is
      a code point below 256 (the UTF-8 decoding of [recv] is not modelled).
    - Sockets are identified by a number; whether a [send] raises is an
      input of each step (an oracle), since it depends on the network.
    - [json.dumps] (the Python library serialiser) is an argument of the
      server functions; [json.loads] is modelled by [json_loads] below,
      which follows CPython's [json.decoder] / [json.scanner]. *)

From Stdlib Require Import String Ascii List Bool ZArith NArith QArith Lia.
#[export] Set Warnings "-register-all".
Import ListNotations.
Open Scope Z_scope.

(* ------------------------------------------------------------------ *)
(** ** Python values produced by [json.loads] *)

Inductive json : Type :=
| JNull
| JBool (b : bool)
| JNum (q : Q)
| JNonFinite (name : string)  (* NaN, Infinity, -Infinity *)
| JStr (s : list N)
| JArr (l : list json)
| JObj (kv : list (list N * json)).

(** Code points of an ASCII literal. *)
Definition cps (s : string) : list N := map N_of_ascii (list_ascii_of_string s).

Fixpoint list_N_eqb (a b : list N) : bool :=
  match a, b with
  | [], [] => true
  | x :: a', y :: b' => N.eqb x y && list_N_eqb a' b'
  | _, _ => false
  end.

(** [d.get(k)] on a dict built by [json.loads]: the last binding of a
    duplicated key wins. *)
Definition dict_get (kv : list (list N * json)) (k : list N) : option json :=
  fold_left (fun acc '(k', v) => if list_N_eqb k' k then Some v else acc) kv None.

(** [d.get(k, default)] *)
Definition dict_get_default (kv : list (list N * json)) (k : list N) (d : json)
  : json :=
  match dict_get kv k with Some v => v | None => d end.

(** Python [v == n] for an integer literal [n]: numbers compare by value and
    [True == 1], [False == 0]; every other value differs from [n]. *)
Definition py_eq_int (v : json) (n : Z) : bool :=
  match v with
  | JNum q => Qeq_bool q (inject_Z n)
  | JBool b => Z.eqb (if b then 1 else 0) n
  | _ => false
  end.

(** Python [v == 'lit'] where [v] is the result of [d.get(...)]
    ([None] when the key is absent). *)
Definition py_eq_str (v : option json) (lit : string) : bool :=
  match v with
  | Some (JStr s) => list_N_eqb s (cps lit)
  | _ => false
  end.

(* ------------------------------------------------------------------ *)
(** ** [json.loads] *)

Module JsonDecode.

Definition is_ws (c : ascii) : bool :=
  let n := nat_of_ascii c in
  (n =? 32)%nat || (n =? 9)%nat || (n =? 10)%nat || (n =? 13)%nat.

Fixpoint skip_ws (s : string) : string :=
  match s with
  | String c r => if is_ws c then skip_ws r else s
  | EmptyString => s
  end.

Definition digit_val (c : ascii) : option Z :=
  let n := nat_of_ascii c in
  if ((48 <=? n) && (n <=? 57))%nat then Some (Z.of_nat n - 48) else None.

(** Maximal run of decimal digits: (digits read, value, rest). *)
Fixpoint take_digits (s : string) (k : nat) (acc : Z) : nat * Z * string :=
  match s with
  | String c r =>
      match digit_val c with
      | Some d => take_digits r (S k) (acc * 10 + d)
      | None => (k, acc, s)
      end
  | EmptyString => (k, acc, s)
  end.

Definition prefix_eqb (p s : string) : bool := String.prefix p s.

(** CPython's [NUMBER_RE]: an optional minus sign, then [0] or a nonzero
    digit followed by digits, then optionally a dot and at least one digit,
    then optionally [e] or [E], an optional sign and at least one digit. *)
Definition parse_number (s : string) : option (json * string) :=
  let '(neg, s1) := match s with
                    | String "-" r => (true, r)
                    | _ => (false, s)
                    end in
  let int_part :=
    match s1 with
    | String "0" r => Some (0, r)
    | String c _ =>
        match digit_val c with
        | Some _ => let '(_, v, r) := take_digits s1 0 0 in Some (v, r)
        | None => None
        end
    | EmptyString => None
    end in
  match int_part with
  | None => None
  | Some (iv, s2) =>
      let '(fnum, fk, s3) :=
        match s2 with
        | String "." r =>
            let '(k, v, r') := take_digits r 0 0 in
            if (0 <? k)%nat then (v, k, r') else (0, O, s2)
        | _ => (0, O, s2)
        end in
      let '(ev, s4) :=
        let exp_body r :=
          let '(esign, r1) := match r with
                              | String "-" r' => (-1, r')
                              | String "+" r' => (1, r')
                              | _ => (1, r)
                              end in
          let '(k, v, r2) := take_digits r1 0 0 in
          if (0 <? k)%nat then (esign * v, r2) else (0, s3) in
        match s3 with
        | String "e" r => exp_body r
        | String "E" r => exp_body r
        | _ => (0, s3)
        end in
      let mant : Q := (inject_Z iv + (fnum # Z.to_pos (10 ^ Z.of_nat fk)))%Q in
      let scaled : Q :=
        if ev <? 0 then (mant * (1 # Z.to_pos (10 ^ (- ev))))%Q
        else (mant * inject_Z (10 ^ ev))%Q in
      Some (JNum (if neg then Qopp scaled else scaled), s4)
  end.

Definition hex_val (c : ascii) : option N :=
  let n := nat_of_ascii c in
  if ((48 <=? n) && (n <=? 57))%nat then Some (N.of_nat (n - 48))
  else if ((97 <=? n) && (n <=? 102))%nat then Some (N.of_nat (n - 87))
  else if ((65 <=? n) && (n <=? 70))%nat then Some (N.of_nat (n - 55))
  else None.

Definition hex4 (s : string) : option (N * string) :=
  match s with
  | String a (String b (String c (String d r))) =>
      match hex_val a, hex_val b, hex_val c, hex_val d with
      | Some a', Some b', Some c', Some d' =>
          Some (((a' * 16 + b') * 16 + c') * 16 + d', r)%N
      | _, _, _, _ => None
      end
  | _ => None
  end.

(** [\uXXXX], joining a surrogate pair as [py_scanstring] does. *)
Definition unicode_escape (s : string) : option (N * string) :=
  match hex4 s with
  | None => None
  | Some (u, r) =>
      if ((55296 <=? u) && (u <=? 56319))%N then
        match r with
        | String "\" (String "u" r') =>
            match hex4 r' with
            | Some (u2, r'') =>
                if ((56320 <=? u2) && (u2 <=? 57343))%N then
                  Some (65536 + (u - 55296) * 1024 + (u2 - 56320), r'')%N
                else Some (u, r)
            | None => Some (u, r)
            end
        | _ => Some (u, r)
        end
      else Some (u, r)
  end.

Definition simple_escape (c : ascii) : option N :=
  match c with
  | "034"%char => Some 34%N
  | "\"%char => Some 92%N
  | "/"%char => Some 47%N
  | "b"%char => Some 8%N
  | "f"%char => Some 12%N
  | "n"%char => Some 10%N
  | "r"%char => Some 13%N
  | "t"%char => Some 9%N
  | _ => None
  end.

(** Body of a string literal after its opening quote ([strict=True]:
    control characters are refused). *)
Fixpoint scan_string (fuel : nat) (s : string) (acc : list N)
  : option (list N * string) :=
  match fuel with
  | O => None
  | S f =>
      match s with
      | EmptyString => None
      | String "034" r => Some (rev acc, r)
      | String "\" r =>
          match r with
          | String "u" r' =>
              match unicode_escape r' with
              | Some (u, r'') => scan_string f r'' (u :: acc)
              | None => None
              end
          | String e r' =>
              match simple_escape e with
              | Some u => scan_string f r' (u :: acc)
              | None => None
              end
          | EmptyString => None
          end
      | String c r =>
          if (nat_of_ascii c <? 32)%nat then None
          else scan_string f r (N_of_ascii c :: acc)
      end
  end.

(** [scan_once], [JSONObject] and [JSONArray]; the fuel bounds the number of
    nested calls. *)
Fixpoint scan_once (fuel : nat) (s : string) : option (json * string) :=
  match fuel with
  | O => None
  | S f =>
      match s with
      | String "034" r =>
          match scan_string (S (String.length r)) r [] with
          | Some (v, r') => Some (JStr v, r')
          | None => None
          end
      | String "{" r =>
          match skip_ws r with
          | String "034" r1 => object_items f r1 []
          | String "}" r1 => Some (JObj [], r1)
          | _ => None
          end
      | String "[" r =>
          match skip_ws r with
          | String "]" r1 => Some (JArr [], r1)
          | r1 => array_items f r1 []
          end
      | _ =>
          if prefix_eqb "null" s then Some (JNull, substring 4 (String.length s) s)
          else if prefix_eqb "true" s then Some (JBool true, substring 4 (String.length s) s)
          else if prefix_eqb "false" s then Some (JBool false, substring 5 (String.length s) s)
          else match parse_number s with
               | Some res => Some res
               | None =>
                   if prefix_eqb "NaN" s then
                     Some (JNonFinite "NaN", substring 3 (String.length s) s)
                   else if prefix_eqb "Infinity" s then
                     Some (JNonFinite "Infinity", substring 8 (String.length s) s)
                   else if prefix_eqb "-Infinity" s then
                     Some (JNonFinite "-Infinity", substring 9 (String.length s) s)
                   else None
               end
      end
  end
(* after the opening quote of a key *)
with object_items (fuel : nat) (s : string) (acc : list (list N * json))
  : option (json * string) :=
  match fuel with
  | O => None
  | S f =>
      match scan_string (S (String.length s)) s [] with
      | None => None
      | Some (k, r) =>
          match skip_ws r with
          | String ":" r1 =>
              match scan_once f (skip_ws r1) with
              | None => None
              | Some (v, r2) =>
                  match skip_ws r2 with
                  | String "}" r3 => Some (JObj (rev ((k, v) :: acc)), r3)
                  | String "," r3 =>
                      match skip_ws r3 with
                      | String "034" r4 => object_items f r4 ((k, v) :: acc)
                      | _ => None
                      end
                  | _ => None
                  end
              end
          | _ => None
          end
      end
  end
(* at the first character of an element *)
with array_items (fuel : nat) (s : string) (acc : list json)
  : option (json * string) :=
  match fuel with
  | O => None
  | S f =>
      match scan_once f s with
      | None => None
      | Some (v, r) =>
          match skip_ws r with
          | String "]" r1 => Some (JArr (rev (v :: acc)), r1)
          | String "," r1 => array_items f (skip_ws r1) (v :: acc)
          | _ => None
          end
      end
  end.

End JsonDecode.

(** [json.loads(line)]: [None] when it raises [JSONDecodeError]. *)
Definition json_loads (s : string) : option json :=
  match JsonDecode.scan_once (S (2 * String.length s)) (JsonDecode.skip_ws s) with
  | Some (v, rest) =>
      match JsonDecode.skip_ws rest with
      | EmptyString => Some v
      | _ => None  (* "Extra data" *)
      end
  | None => None
  end.

(* ------------------------------------------------------------------ *)
(** ** Client side: [PIRClient] of [src/video-client.py] *)

(** The attributes of [PIRClient] used by the decoder and by [get_motion],
    together with the two locals of [_receive_data] ([buffer] and
    [previous_state]). *)
Record receiver := mk_receiver {
  connected : bool;
  motion_detected : bool;
  last_motion_time : Q;
  running : bool;
  buffer : string;
  previous_state : json
}.

Definition set_motion (t : Q) (r : receiver) : receiver :=
  mk_receiver (connected r) true t (running r) (buffer r) (previous_state r).
Definition set_previous_state (v : json) (r : receiver) : receiver :=
  mk_receiver (connected r) (motion_detected r) (last_motion_time r)
    (running r) (buffer r) v.
Definition set_buffer (b : string) (r : receiver) : receiver :=
  mk_receiver (connected r) (motion_detected r) (last_motion_time r)
    (running r) b (previous_state r).
Definition set_disconnected (r : receiver) : receiver :=
  mk_receiver false (motion_detected r) (last_motion_time r)
    (running r) (buffer r) (previous_state r).
Definition clear_motion (r : receiver) : receiver :=
  mk_receiver (connected r) false (last_motion_time r)
    (running r) (buffer r) (previous_state r).

(** State right after [connect] has started the receive thread:
    [buffer = ""], [previous_state = 0], [motion_detected = False],
    [last_motion_time = 0]. *)
Definition receiver_init : receiver :=
  mk_receiver true false 0%Q true EmptyString (JNum 0).

(** Characters for which Python's [str.isspace] holds (below 256). *)
Definition py_isspace (c : ascii) : bool :=
  let n := nat_of_ascii c in
  ((9 <=? n) && (n <=? 13))%nat || ((28 <=? n) && (n <=? 32))%nat
  || (n =? 133)%nat || (n =? 160)%nat.

(** [line.strip()] is truthy. *)
Definition strip_nonempty (line : string) : bool :=
  existsb (fun c => negb (py_isspace c)) (list_ascii_of_string line).

(** Body of the [try] for one parsed [message] (lines 124-139);
    [None] when it raises, i.e. [message] is not a dict and [.get] raises
    [AttributeError], which escapes to the outer [except Exception]. *)
Definition handle_message (now : Q) (message : json) (r : receiver)
  : option receiver :=
  match message with
  | JObj kv =>
      if py_eq_str (dict_get kv (cps "type")) "pir_state" then
        let current_state := dict_get_default kv (cps "state") (JNum 0) in
        let r1 := if py_eq_int current_state 1 && py_eq_int (previous_state r) 0
                  then set_motion now r else r in
        Some (set_previous_state current_state r1)
      else if py_eq_str (dict_get kv (cps "type")) "welcome" then
        Some (set_previous_state (dict_get_default kv (cps "pir_state") (JNum 0)) r)
      else Some r
  | _ => None
  end.

(** One complete line (lines 120-142): blank lines are skipped, a
    [JSONDecodeError] is swallowed. *)
Definition process_line (now : Q) (line : string) (r : receiver)
  : option receiver :=
  if strip_nonempty line then
    match json_loads line with
    | Some message => handle_message now message r
    | None => Some r
    end
  else Some r.

(** [while '\n' in buffer: line, buffer = buffer.split('\n', 1); ...]:
    [acc] holds the reversed characters of the line being cut; the result
    is [inl] of the remaining partial line and the state, or [inr] of the
    state reached when a line raised: the attributes set by the earlier
    lines of the same buffer ([self.motion_detected],
    [self.last_motion_time]) keep their new values. *)
Fixpoint process_chars (now : Q) (acc : list ascii) (s : string) (r : receiver)
  : (list ascii * receiver) + receiver :=
  match s with
  | EmptyString => inl (acc, r)
  | String c rest =>
      if Ascii.eqb c "010"%char then
        match process_line now (string_of_list_ascii (rev acc)) r with
        | Some r' => process_chars now [] rest r'
        | None => inr r
        end
      else process_chars now (c :: acc) rest r
  end.

(** The processing of the accumulated [buffer]: on an exception the loop
    sets [connected = False] and breaks. *)
Definition process_buffer (now : Q) (buf : string) (r : receiver) : receiver :=
  match process_chars now [] buf r with
  | inl (acc, r') => set_buffer (string_of_list_ascii (rev acc)) r'
  | inr r' => set_disconnected r'
  end.

(** Outcome of one [self.socket.recv(...)] call. *)
Inductive recv_result :=
| RecvData (data : string)   (* decoded text *)
| RecvTimeout                (* socket.timeout *)
| RecvError.                 (* any other exception *)

(** One iteration of the [while self.running and self.connected] loop of
    [_receive_data]. *)
Definition receive_step (now : Q) (res : recv_result) (r : receiver) : receiver :=
  if running r && connected r then
    match res with
    | RecvTimeout => r
    | RecvError => set_disconnected r
    | RecvData EmptyString => set_disconnected r   (* closed by server *)
    | RecvData data => process_buffer now (buffer r ++ data)%string r
    end
  else r.

(** [PIRClient.get_motion] (lines 151-158); [now] is [time.time()] and
    [motion_debounce_ms] is [SETTINGS['motion_debounce_ms']]. *)
Definition get_motion (motion_debounce_ms : Q) (now : Q) (r : receiver)
  : bool * receiver :=
  if motion_detected r then
    if Qlt_le_dec (motion_debounce_ms / 1000) (now - last_motion_time r)
    then (true, clear_motion r)
    else (false, r)
  else (false, r).

Definition SETTINGS_motion_debounce_ms : Q := 200.

(** The two threads of the video client: the receive thread performs one
    [recv] iteration, or the main loop calls [get_motion]. *)
Inductive client_input :=
| Recv (now : Q) (res : recv_result)
| Poll (now : Q).

(** Interleaved run; the results of the [get_motion] calls, in order. *)
Fixpoint client_run (motion_debounce_ms : Q) (ins : list client_input)
  (r : receiver) : receiver * list bool :=
  match ins with
  | [] => (r, [])
  | Recv now res :: rest => client_run motion_debounce_ms rest (receive_step now res r)
  | Poll now :: rest =>
      let '(b, r1) := get_motion motion_debounce_ms now r in
      let '(r2, bs) := client_run motion_debounce_ms rest r1 in
      (r2, b :: bs)
  end.

(** JSON text written with the apostrophe standing for the double quote. *)
Definition dq (s : string) : string :=
  string_of_list_ascii
    (map (fun c => if Ascii.eqb c "'"%char then "034"%char else c)
       (list_ascii_of_string s)).

Definition nl : string := String "010" EmptyString.



(* ------------------------------------------------------------------ *)
(** ** Server side: [src/pir-server.py] *)

Module Server.

(** An entry [(client_socket, client_address)] of the global [clients]. *)
Record client := mk_client { client_socket : nat; client_address : string }.

Definition client_eqb (a b : client) : bool :=
  Nat.eqb (client_socket a) (client_socket b)
  && String.eqb (client_address a) (client_address b).

(** Observable actions of the server. *)
Inductive event :=
| EvAppend (c : client)                        (* clients.append(c) *)
| EvRemove (c : client)                        (* clients.remove(c) *)
| EvSend (sock : nat) (payload : string) (ok : bool)  (* sock.send(...) *)
| EvClose (sock : nat)                         (* sock.close() *)
| EvDumps (data : json).                       (* json.dumps(data) *)

(** Module globals [clients], [pir_state], [motion_count],
    [last_state_change]. *)
Record server := mk_server {
  clients : list client;
  pir_state : Z;
  motion_count : Z;
  last_state_change : Q
}.

(** Locals of [monitor_sensor]. *)
Record monitor := mk_monitor { previous_state : Z; send_counter : Z }.

Definition server_init : server := mk_server [] 0 0 0%Q.
Definition monitor_init : monitor := mk_monitor 0 0.

Definition PIR_PIN : Z := 24.

Definition set_clients (cls : list client) (s : server) : server :=
  mk_server cls (pir_state s) (motion_count s) (last_state_change s).

(** [list.remove]: drops the first equal element. *)
Fixpoint remove_first (c : client) (l : list client) : list client :=
  match l with
  | [] => []
  | x :: l' => if client_eqb x c then l' else x :: remove_first c l'
  end.

Section WithDumps.

(** [json.dumps] *)
Variable dumps : json -> string.

(** The [for ... in clients: try send ... except: ...] loop of
    [broadcast_to_clients]; [fails sock] says whether [sock.send] raises.
    Returns [disconnected_clients] and the actions. *)
Fixpoint send_loop (fails : nat -> bool) (payload : string) (cls : list client)
  : list client * list event :=
  match cls with
  | [] => ([], [])
  | c :: rest =>
      let '(d, ev) := send_loop fails payload rest in
      if fails (client_socket c)
      then (c :: d, EvSend (client_socket c) payload false :: ev)
      else (d, EvSend (client_socket c) payload true :: ev)
  end.

(** [for client in disconnected_clients: if client in clients:
    clients.remove(client); client[0].close()] *)
Fixpoint remove_loop (d : list client) (cls : list client)
  : list client * list event :=
  match d with
  | [] => (cls, [])
  | c :: rest =>
      if existsb (client_eqb c) cls then
        let '(cls', ev) := remove_loop rest (remove_first c cls) in
        (cls', EvRemove c :: EvClose (client_socket c) :: ev)
      else remove_loop rest cls
  end.

Definition broadcast_to_clients (fails : nat -> bool) (message : string)
  (cls : list client) : list client * list event :=
  let '(d, ev1) := send_loop fails message cls in
  let '(cls', ev2) := remove_loop d cls in
  (cls', ev1 ++ ev2).

Definition welcome_msg (iso : string) (pir : Z) : json :=
  JObj [(cps "type", JStr (cps "welcome"));
        (cps "message", JStr (cps "Connected to PIR server"));
        (cps "timestamp", JStr (cps iso));
        (cps "pir_state", JNum (inject_Z pir))].

(** [handle_client] (lines 67-84), run by the accept loop's thread;
    [send_ok] says whether the welcome [send] succeeds, [iso] is
    [datetime.now().isoformat()]. *)
Definition handle_client (send_ok : bool) (iso : string) (c : client)
  (s : server) : server * list event :=
  let s1 := set_clients (clients s ++ [c]) s in
  let payload := (dumps (welcome_msg iso (pir_state s1)) ++ String "010" EmptyString)%string in
  (s1, [EvAppend c; EvSend (client_socket c) payload send_ok]).

Definition state_record (iso : string) (current_state mc : Z) (tsc : Q)
  (n : nat) : json :=
  JObj [(cps "type", JStr (cps "pir_state"));
        (cps "timestamp", JStr (cps iso));
        (cps "state", JNum (inject_Z current_state));
        (cps "motion", JBool (negb (current_state =? 0)));
        (cps "pin", JNum (inject_Z PIR_PIN));
        (cps "motion_count", JNum (inject_Z mc));
        (cps "time_since_change", JNum tsc);
        (cps "clients_connected", JNum (inject_Z (Z.of_nat n)))].

(** One iteration of the [while running] loop of [monitor_sensor]
    (lines 93-135): [current_state] is [read_pir_state()], [now] is
    [time.time()], [iso] is [datetime.now().isoformat()]. *)
Definition monitor_tick (fails : nat -> bool) (current_state : Z) (now : Q)
  (iso : string) (s : server) (m : monitor) : server * monitor * list event :=
  let '(mc, prev, lsc) :=
    if negb (current_state =? previous_state m) then
      (if current_state =? 1 then motion_count s + 1 else motion_count s,
       current_state, now)
    else (motion_count s, previous_state m, last_state_change s) in
  let tsc := if Qlt_le_dec 0 lsc then (now - lsc)%Q else 0%Q in
  let data := state_record iso current_state mc tsc (length (clients s)) in
  match clients s with
  | [] => (mk_server [] current_state mc lsc, mk_monitor prev (send_counter m), [])
  | _ :: _ =>
      let message := (dumps data ++ String "010" EmptyString)%string in
      let '(cls', ev) := broadcast_to_clients fails message (clients s) in
      (mk_server cls' current_state mc lsc, mk_monitor prev (send_counter m + 1),
       EvDumps data :: ev)
  end.

(** What happens between two observations: a sensor tick, or the thread
    of a newly accepted connection running [handle_client]. *)
Inductive input :=
| Tick (fails : nat -> bool) (reading : Z) (now : Q) (iso : string)
| Accept (c : client) (send_ok : bool) (iso : string).

Fixpoint run (ins : list input) (s : server) (m : monitor)
  : server * monitor * list event :=
  match ins with
  | [] => (s, m, [])
  | Tick fails rd now iso :: rest =>
      let '(s1, m1, ev1) := monitor_tick fails rd now iso s m in
      let '(s2, m2, ev2) := run rest s1 m1 in
      (s2, m2, ev1 ++ ev2)
  | Accept c ok iso :: rest =>
      let '(s1, ev1) := handle_client ok iso c s in
      let '(s2, m2, ev2) := run rest s1 m in
      (s2, m2, ev1 ++ ev2)
  end.

End WithDumps.

(** Sensor readings of the ticks among [ins], in order. *)
Fixpoint readings (ins : list input) : list Z :=
  match ins with
  | [] => []
  | Tick _ rd _ _ :: rest => rd :: readings rest
  | Accept _ _ _ :: rest => readings rest
  end.

(** Actions that only remove or close a connection. *)
Definition is_remove_or_close (e : event) : bool :=
  match e with EvRemove _ | EvClose _ => true | _ => false end.





End Server.

(* ------------------------------------------------------------------ *)
(** ** Server discovery: [PIRClient.find_raspberry_pi] *)

Module Discovery.

(** [str.split(sep)]: every separator cuts, empty pieces included. *)
Fixpoint split_on (sep : ascii) (s : string) (cur : list ascii) : list string :=
  match s with
  | EmptyString => [string_of_list_ascii (rev cur)]
  | String x r =>
      if Ascii.eqb x sep then string_of_list_ascii (rev cur) :: split_on sep r []
      else split_on sep r (x :: cur)
  end.

(** ['.'.join(parts)] *)
Fixpoint join_dot (parts : list string) : string :=
  match parts with
  | [] => EmptyString
  | [x] => x
  | x :: rest => (x ++ "." ++ join_dot rest)%string
  end.

(** [str(n)] for a natural number. *)
Fixpoint str_nat_aux (fuel n : nat) (acc : string) : string :=
  match fuel with
  | O => acc
  | S f =>
      let acc' := String (ascii_of_nat (48 + n mod 10)) acc in
      if (n <? 10)%nat then acc' else str_nat_aux f (n / 10) acc'
  end.

Definition str_nat (n : nat) : string := str_nat_aux (S n) n EmptyString.

(** [network_prefix = '.'.join(local_ip.split('.')[:-1]) + '.'] *)
Definition network_prefix (local_ip : string) : string :=
  (join_dot (removelast (split_on "." local_ip [])) ++ ".")%string.

(** [ip = network_prefix + str(i)] *)
Definition host_ip (prefix : string) (i : nat) : string := (prefix ++ str_nat i)%string.

(** Outcome of [sock.connect_ex((ip, port))] with the 0.05 s timeout: an
    error number (0 on success), or an exception. *)
Inductive connect_result := ConnectCode (errno : Z) | ConnectRaised.

(** The [for i in range(1, 255)] loop: the result and the addresses
    probed, in order. *)
Fixpoint scan (prefix : string) (connect_ex : string -> connect_result)
  (hosts : list nat) : option string * list string :=
  match hosts with
  | [] => (None, [])
  | i :: rest =>
      let ip := host_ip prefix i in
      match connect_ex ip with
      | ConnectCode 0 => (Some ip, [ip])
      | _ => let '(res, probed) := scan prefix connect_ex rest in (res, ip :: probed)
      end
  end.

(** [find_raspberry_pi]; [local_ip] is [None] when the UDP socket used to
    learn the local address raises ("Cannot determine local network"). *)
Definition find_raspberry_pi (local_ip : option string)
  (connect_ex : string -> connect_result) : option string * list string :=
  match local_ip with
  | None => (None, [])
  | Some ip => scan (network_prefix ip) connect_ex (seq 1 254)
  end.

End Discovery.

(** [PIRClient.connect] (lines 74-98). [ip] is the argument: [None], or a
    string, the empty one being falsy. [local_ip] and [connect_ex] are the
    environment of [find_raspberry_pi]; [connect_ok a] says whether
    [self.socket.connect((a, port))] returns without raising. On success
    the new receive thread runs [_receive_data] from its fresh locals
    [buffer = ""] and [previous_state = 0]; the other attributes keep their
    values. *)
Definition connect (ip : option string) (local_ip : option string)
  (connect_ex : string -> Discovery.connect_result) (connect_ok : string -> bool)
  (r : receiver) : bool * receiver :=
  let attempt (a : string) :=
    if connect_ok a
    then (true, mk_receiver true (motion_detected r) (last_motion_time r)
                  (running r) EmptyString (JNum 0))
    else (false, r) in
  match ip with
  | None | Some EmptyString =>
      match fst (Discovery.find_raspberry_pi local_ip connect_ex) with
      | None | Some EmptyString => (false, r)
      | Some a => attempt a
      end
  | Some a => attempt a
  end.

(* ------------------------------------------------------------------ *)
(** ** Player side: [VidPlayer] of [src/video-client.py] *)

(** The pygame events the two loops look at. *)
Inductive key := K_ESCAPE | K_SPACE | K_OTHER.
Inductive pg_event := QUIT | KEYDOWN (k : key) | OTHER_EVENT.

(** The attributes [active], [is_fading] and [vid_done] of [VidPlayer]. *)
Record player := mk_player { active : bool; is_fading : bool; vid_done : bool }.

Definition set_active (b : bool) (p : player) : player :=
  mk_player b (is_fading p) (vid_done p).

(** [start_video] (lines 215-230): [vid_done = False] once the media is
    started; nothing when [os.path.exists(path)] fails. *)
Definition start_video (path_exists : bool) (p : player) : player :=
  if path_exists then mk_player (active p) (is_fading p) false else p.

(** Outcome of the [for e in pygame.event.get()] loop of
    [check_motion_or_input]: it returned [False] (Quit or Escape), it
    returned [True] (Space), or it ran through the batch. *)
Inductive check_event_outcome := CheckQuit | CheckTrigger | CheckNone.

Fixpoint check_events (evs : list pg_event) : check_event_outcome :=
  match evs with
  | [] => CheckNone
  | QUIT :: _ => CheckQuit
  | KEYDOWN K_ESCAPE :: _ => CheckQuit
  | KEYDOWN K_SPACE :: _ => CheckTrigger
  | _ :: rest => check_events rest
  end.

(** One iteration of the [while self.active] loop of
    [check_motion_or_input] (lines 260-285): [Some b] when it returns [b],
    [None] when it reaches [self.clock.tick]. [evs] is the batch drained by
    [pygame.event.get()], [now] the [time.time()] read by [get_motion],
    [path_exists] the test of [start_video]. *)
Definition check_iter (evs : list pg_event) (now : Q) (path_exists : bool)
  (p : player) (r : receiver) : option bool * player * receiver :=
  match check_events evs with
  | CheckQuit => (Some false, set_active false p, r)
  | CheckTrigger => (Some true, p, r)
  | CheckNone =>
      let '(m, r1) := get_motion SETTINGS_motion_debounce_ms now r in
      if m && negb (is_fading p) then (Some true, p, r1)
      else if vid_done p then (Some false, start_video path_exists p, r1)
      else (None, p, r1)
  end.

(** The [for e in pygame.event.get()] loop of [wait_no_motion]: [true]
    when it returns on Quit or Escape. *)
Fixpoint wait_events (evs : list pg_event) : bool :=
  match evs with
  | [] => false
  | QUIT :: _ => true
  | KEYDOWN K_ESCAPE :: _ => true
  | _ :: rest => wait_events rest
  end.

(** Locals [start] and [last_motion_check] of [wait_no_motion]. *)
Record wait_state := mk_wait { start : option Q; last_motion_check : Q }.

Definition wait_init : wait_state := mk_wait None 0.

(** The motion test of line 306. *)
Definition motion_active (t : Q) (r : receiver) : bool :=
  motion_detected r
  || (if Qlt_le_dec (t - last_motion_time r) (1 # 2) then true else false).

(** One iteration of the [while self.active] loop of [wait_no_motion]
    (lines 293-322). [t1], [t2], [t3] are the successive results of
    [time.time()] in the iteration: [current_time], then the one of
    [start = time.time()] when [start] is [None], then the one of
    [elapsed]. *)
Definition wait_iter (secs : Q) (evs : list pg_event) (t1 t2 t3 : Q)
  (p : player) (w : wait_state) (r : receiver)
  : option bool * player * wait_state * receiver :=
  if wait_events evs then (Some false, set_active false p, w, r)
  else if Qlt_le_dec (1 # 10) (t1 - last_motion_check w) then
    if motion_active t1 r then (None, p, mk_wait None t1, clear_motion r)
    else
      let '(s, t_el) := match start w with None => (t2, t3) | Some s => (s, t2) end in
      if Qle_bool secs (t_el - s) then (Some true, p, mk_wait (Some s) (last_motion_check w), r)
      else (None, p, mk_wait (Some s) t1, r)
  else (None, p, w, r).

(** What happens during [wait_no_motion]: the receive thread performs one
    [recv] iteration, or the loop runs one iteration. *)
Inductive wait_input :=
| WRecv (now : Q) (res : recv_result)
| WIter (evs : list pg_event) (t1 t2 t3 : Q).

(** [Some b] once [wait_no_motion] has returned [b]; [None] while it is
    still waiting at the end of [ins]. *)
Fixpoint wait_run (secs : Q) (ins : list wait_input) (p : player)
  (w : wait_state) (r : receiver) : option bool * player * wait_state * receiver :=
  match ins with
  | [] => (None, p, w, r)
  | WRecv now res :: rest => wait_run secs rest p w (receive_step now res r)
  | WIter evs t1 t2 t3 :: rest =>
      if active p then
        match wait_iter secs evs t1 t2 t3 p w r with
        | (Some b, p', w', r') => (Some b, p', w', r')
        | (None, p', w', r') => wait_run secs rest p' w' r'
        end
      else (Some false, p, w, r)
  end.


(* ------------------------------------------------------------------ *)
(** ** Concrete frames used in the client scenarios *)

(** A StateRecord as [json.dumps] writes it, with the given [state]. *)
Definition state_line (state : string) : string :=
  (dq ("{'type': 'pir_state', 'timestamp': '2025-01-01T12:00:00.000000', 'state': "
       ++ state ++ ", 'motion': true, 'pin': 24, 'motion_count': 1, "
       ++ "'time_since_change': 0.0, 'clients_connected': 1}") ++ nl)%string.

Definition welcome_line (pir : string) : string :=
  (dq ("{'type': 'welcome', 'message': 'Connected to PIR server', "
       ++ "'timestamp': '2025-01-01T12:00:00.000000', 'pir_state': " ++ pir ++ "}")
   ++ nl)%string.

(** Each StateRecord arrives in its own [recv] at time [t]; the main loop
    polls [get_motion] twice, one and two seconds later. *)
Definition ticks_then_polls (frames : list (Z * string)) : list client_input :=
  flat_map (fun '(t, fr) =>
              [Recv (inject_Z t) (RecvData fr); Poll (inject_Z t + 1)%Q;
               Poll (inject_Z t + 2)%Q]) frames.

Definition states_001101 : list client_input :=
  ticks_then_polls
    [(1, state_line "0"); (3, state_line "0"); (5, state_line "1");
     (7, state_line "1"); (9, state_line "0"); (11, state_line "1")].



(** Only the host [192.168.1.3] accepts; every other probe is refused. *)
Definition accepts_host_3 (a : string) : Discovery.connect_result :=
  if String.eqb a "192.168.1.3" then Discovery.ConnectCode 0 else Discovery.ConnectCode 111.

Definition p_on : player := mk_player true false false.


(** A rising edge received just before the wait starts. *)
Definition edge_ins : list wait_input :=
  [WRecv 0 (RecvData (state_line "1")); WIter [] 1 1 1; WIter [] 2 2 2; WIter [] 11 11 11].


(* ================================================================== *)
(** * Client properties *)

Lemma Qlt_le_absurd : forall x y : Q, (x < y)%Q -> (y <= x)%Q -> False.
Proof. intros x y H1 H2. exact (Qlt_not_le _ _ H1 H2). Qed.

(** C3. [get_motion] returns true exactly when the flag is set and more
    than the debounce window has passed since [last_motion_time]; it then
    clears the flag and nothing else, otherwise it changes nothing; so a
    second call right after a successful one returns false. *)
Theorem get_motion_consumes_once : forall ms now r,
  (fst (get_motion ms now r) = true <->
     motion_detected r = true /\ (ms / 1000 < now - last_motion_time r)%Q) /\
  (fst (get_motion ms now r) = true -> snd (get_motion ms now r) = clear_motion r) /\
  (fst (get_motion ms now r) = false -> snd (get_motion ms now r) = r) /\
  (fst (get_motion ms now r) = true ->
     forall now', fst (get_motion ms now' (snd (get_motion ms now r))) = false).
Proof.
  intros ms now r. unfold get_motion.
  destruct (motion_detected r) eqn:E.
  - destruct (Qlt_le_dec (ms / 1000) (now - last_motion_time r)) as [Hlt|Hle];
      simpl.
    + repeat split; auto; discriminate.
    + repeat split; auto; try discriminate.
      intros [_ H]. exfalso. exact (Qlt_le_absurd _ _ H Hle).
  - simpl. repeat split; auto; try discriminate.
    intros [H _]. discriminate H.
Qed.

Lemma get_motion_consumes_once_witness :
  fst (get_motion SETTINGS_motion_debounce_ms 2 (set_motion 1 receiver_init)) = true /\
  fst (get_motion SETTINGS_motion_debounce_ms 2
         (snd (get_motion SETTINGS_motion_debounce_ms 2 (set_motion 1 receiver_init))))
  = false.
Proof.
  destruct (get_motion_consumes_once SETTINGS_motion_debounce_ms 2
              (set_motion 1 receiver_init)) as [Hiff [_ [_ Hsecond]]].
  assert (H : fst (get_motion SETTINGS_motion_debounce_ms 2 (set_motion 1 receiver_init))
              = true) by (apply Hiff; split; [reflexivity | vm_compute; reflexivity]).
  split; [exact H | exact (Hsecond H 2%Q)].
Defined.

Lemma py_eq_int_num : forall a n, py_eq_int (JNum (inject_Z a)) n = (a =? n).
Proof.
  intros a n. change (Qeq_bool (inject_Z a) (inject_Z n) = (a =? n)).
  destruct (Z.eqb_spec a n) as [->|Hne].
  - apply Qeq_bool_refl.
  - apply not_true_is_false. intro H.
    apply Qeq_bool_eq in H. apply (proj1 (inject_Z_injective a n)) in H.
    exact (Hne H).
Qed.

Lemma handle_pir_state : forall now r kv,
  dict_get kv (cps "type") = Some (JStr (cps "pir_state")) ->
  handle_message now (JObj kv) r =
  Some (set_previous_state (dict_get_default kv (cps "state") (JNum 0))
          (if py_eq_int (dict_get_default kv (cps "state") (JNum 0)) 1
              && py_eq_int (previous_state r) 0
           then set_motion now r else r)).
Proof. intros now r kv H. unfold handle_message. rewrite H. reflexivity. Qed.

Lemma handle_welcome : forall now r kv,
  dict_get kv (cps "type") = Some (JStr (cps "welcome")) ->
  handle_message now (JObj kv) r =
  Some (set_previous_state (dict_get_default kv (cps "pir_state") (JNum 0)) r).
Proof. intros now r kv H. unfold handle_message. rewrite H. reflexivity. Qed.

(** C4. A StateRecord sets the motion flag and its timestamp exactly when
    [previous_state == 0] and [state == 1], leaves them unchanged
    otherwise, and always sets [previous_state] to the record's state.
    The states 0,0,1,1,0,1, each followed by two polls of [get_motion],
    give exactly two true answers, one per rising edge. *)
Theorem state_record_edge :
  (forall now r kv st,
     dict_get kv (cps "type") = Some (JStr (cps "pir_state")) ->
     dict_get kv (cps "state") = Some (JNum (inject_Z st)) ->
     exists r', handle_message now (JObj kv) r = Some r' /\
       previous_state r' = JNum (inject_Z st) /\
       connected r' = connected r /\ running r' = running r /\
       buffer r' = buffer r /\
       (if (st =? 1) && py_eq_int (previous_state r) 0
        then motion_detected r' = true /\ last_motion_time r' = now
        else motion_detected r' = motion_detected r /\
             last_motion_time r' = last_motion_time r)) /\
  snd (client_run SETTINGS_motion_debounce_ms states_001101 receiver_init)
  = [false; false; false; false; true; false; false; false; false; false; true; false].
Proof.
  split.
  - intros now r kv st Htype Hstate.
    rewrite (handle_pir_state now r kv Htype).
    unfold dict_get_default. rewrite Hstate, py_eq_int_num.
    eexists. split; [reflexivity|].
    destruct ((st =? 1) && py_eq_int (previous_state r) 0);
      repeat split; reflexivity.
  - vm_compute. reflexivity.
Qed.

Lemma state_record_edge_witness :
  exists r', handle_message 5 (JObj [(cps "type", JStr (cps "pir_state"));
                                     (cps "state", JNum (inject_Z 1))])
               receiver_init = Some r' /\
             motion_detected r' = true /\ last_motion_time r' = 5%Q.
Proof.
  destruct (proj1 state_record_edge 5%Q receiver_init
              [(cps "type", JStr (cps "pir_state")); (cps "state", JNum (inject_Z 1))] 1
              eq_refl eq_refl) as [r' [H [_ [_ [_ [_ Hm]]]]]].
  exists r'. split; [exact H | exact Hm].
Defined.

(** C5. A WelcomeRecord only sets [previous_state] from its [pir_state];
    hence a WelcomeRecord with [pir_state = 1] followed by a StateRecord with
    [state = 1] leaves the motion flag and its timestamp as they were, and
    the consumer sees no motion. *)
Theorem welcome_seeds_previous_state :
  (forall now r kv,
     dict_get kv (cps "type") = Some (JStr (cps "welcome")) ->
     handle_message now (JObj kv) r =
     Some (set_previous_state (dict_get_default kv (cps "pir_state") (JNum 0)) r)) /\
  (forall now1 now2 iso1 iso2 mc tsc n r,
     exists r1 r2,
       handle_message now1 (Server.welcome_msg iso1 1) r = Some r1 /\
       handle_message now2 (Server.state_record iso2 1 mc tsc n) r1 = Some r2 /\
       motion_detected r2 = motion_detected r /\
       last_motion_time r2 = last_motion_time r) /\
  snd (client_run SETTINGS_motion_debounce_ms
         [Recv 1 (RecvData (welcome_line "1")); Recv 2 (RecvData (state_line "1"));
          Poll 3; Poll 4] receiver_init) = [false; false].
Proof.
  split; [exact handle_welcome|]. split.
  - intros. do 2 eexists.
    split; [reflexivity|]. split; [reflexivity|]. split; reflexivity.
  - vm_compute. reflexivity.
Qed.

Lemma welcome_seeds_previous_state_witness :
  handle_message 1 (JObj [(cps "type", JStr (cps "welcome"));
                          (cps "pir_state", JNum (inject_Z 1))]) receiver_init
  = Some (set_previous_state (JNum (inject_Z 1)) receiver_init).
Proof. apply (proj1 welcome_seeds_previous_state). reflexivity. Defined.

(** C10. A [pir_state] frame without a [state] field counts as state 0:
    it sets [previous_state] to 0 and nothing else, so that a following
    [state = 1] record is a rising edge, even after a welcome with
    [pir_state = 1]. *)
Theorem missing_state_defaults_to_zero :
  (forall now r kv,
     dict_get kv (cps "type") = Some (JStr (cps "pir_state")) ->
     dict_get kv (cps "state") = None ->
     handle_message now (JObj kv) r = Some (set_previous_state (JNum 0) r)) /\
  (forall now1 now2 now3 iso1 iso2 mc tsc n r,
     exists r1 r2 r3,
       handle_message now1 (Server.welcome_msg iso1 1) r = Some r1 /\
       handle_message now2 (JObj [(cps "type", JStr (cps "pir_state"))]) r1 = Some r2 /\
       handle_message now3 (Server.state_record iso2 1 mc tsc n) r2 = Some r3 /\
       motion_detected r3 = true /\ last_motion_time r3 = now3).
Proof.
  split.
  - intros now r kv Htype Hstate.
    rewrite (handle_pir_state now r kv Htype).
    unfold dict_get_default. rewrite Hstate. reflexivity.
  - intros. do 3 eexists.
    split; [reflexivity|]. split; [reflexivity|]. split; [reflexivity|].
    split; reflexivity.
Qed.

Lemma missing_state_defaults_to_zero_witness :
  handle_message 1 (JObj [(cps "type", JStr (cps "pir_state"))])
    (set_previous_state (JNum 1) receiver_init)
  = Some (set_previous_state (JNum 0) (set_previous_state (JNum 1) receiver_init)).
Proof. apply (proj1 missing_state_defaults_to_zero); reflexivity. Defined.







(** *** Decoding, connection and player loops *)

Lemma string_app_assoc : forall a b c : string, ((a ++ b) ++ c = a ++ b ++ c)%string.
Proof. induction a as [|x a IH]; intros b c; simpl; [reflexivity | rewrite IH; reflexivity]. Qed.

Lemma string_app_nil_r : forall a : string, (a ++ EmptyString)%string = a.
Proof. induction a as [|x a IH]; simpl; [reflexivity|now rewrite IH]. Qed.



























(** X6. A check of [wait_no_motion] that sees motion resets the timer and
    clears [motion_detected], so [get_motion] does not report that edge
    afterwards; and when [wait_no_motion] returns True the motion flag is
    down, so no edge seen before the end of the wait triggers the next
    [check_motion_or_input]. *)
(** X6. A check of [wait_no_motion] that sees motion resets the timer and
    clears [motion_detected], so [get_motion] does not report that edge
    afterwards; and when [wait_no_motion] returns True the motion flag is
    down, so no edge seen before the end of the wait triggers the next
    [check_motion_or_input]. *)
Theorem wait_check_consumes_edge :
  (forall secs evs t1 t2 t3 p w r,
     wait_events evs = false -> (1 # 10 < t1 - last_motion_check w)%Q ->
     motion_active t1 r = true ->
     wait_iter secs evs t1 t2 t3 p w r = (None, p, mk_wait None t1, clear_motion r) /\
     forall ms now, fst (get_motion ms now (clear_motion r)) = false) /\
  (forall secs ins p w r p' w' r',
     wait_run secs ins p w r = (Some true, p', w', r') ->
     motion_detected r' = false /\ forall ms now, fst (get_motion ms now r') = false).
Proof.
  split.
  - intros secs evs t1 t2 t3 p w r He Ht Hm. split.
    + unfold wait_iter. rewrite He, Hm.
      destruct (Qlt_le_dec (1 # 10) (t1 - last_motion_check w)) as [_|Hle];
        [reflexivity|exfalso; exact (Qlt_le_absurd _ _ Ht Hle)].
    + intros ms now. reflexivity.
  - intros secs ins. induction ins as [|i ins IH]; intros p w r p' w' r' H;
      [discriminate H|].
    destruct i as [now res|evs t1 t2 t3]; simpl in H; [exact (IH _ _ _ _ _ _ H)|].
    destruct (active p); [|discriminate H].
    destruct (wait_iter secs evs t1 t2 t3 p w r) as [[[o p1] w1] r1] eqn:E.
    destruct o as [b|]; [|exact (IH _ _ _ _ _ _ H)].
    injection H as -> <- <- <-.
    unfold wait_iter in E.
    destruct (wait_events evs); [discriminate E|].
    destruct (Qlt_le_dec _ _); [|discriminate E].
    destruct (motion_active t1 r) eqn:Hm; [discriminate E|].
    destruct (match start w with None => (t2, t3) | Some s => (s, t2) end) as [s t_el].
    destruct (Qle_bool secs (t_el - s)); [|discriminate E].
    injection E as _ _ <-.
    unfold motion_active in Hm. apply orb_false_iff in Hm. destruct Hm as [Hm _].
    split; [exact Hm|]. intros ms now. unfold get_motion. rewrite Hm. reflexivity.
Qed.

Lemma wait_check_consumes_edge_witness :
  wait_iter 8 [] 1 1 1 p_on wait_init (set_motion 0 receiver_init) =
    (None, p_on, mk_wait None 1, clear_motion (set_motion 0 receiver_init)) /\
  let '(o, _, _, r') := wait_run 8 edge_ins p_on wait_init receiver_init in
  o = Some true /\ motion_detected r' = false.
Proof.
  split.
  - apply (proj1 wait_check_consumes_edge); [reflexivity|vm_compute; reflexivity|vm_compute; reflexivity].
  - destruct (wait_run 8 edge_ins p_on wait_init receiver_init) as [[[o p'] w'] r'] eqn:E.
    assert (Ho : o = Some true) by (vm_compute in E; congruence).
    subst o. split; [reflexivity|].
    exact (proj1 (proj2 wait_check_consumes_edge _ _ _ _ _ _ _ _ E)).
Defined.


(** X7. In [check_motion_or_input] the first Quit, Escape or Space event
    of the batch decides, whatever follows it; when the events decide, the
    PIR client is left untouched (no motion edge is consumed), and only Quit
    or Escape clear [active]. *)
(** X7. In [check_motion_or_input] the first Quit, Escape or Space event
    of the batch decides, whatever follows it; when the events decide, the
    PIR client is left untouched (no motion edge is consumed), and only Quit
    or Escape clear [active]. *)
Theorem check_first_key_decides :
  (forall pre e post,
     Forall (fun e => check_events [e] = CheckNone) pre ->
     check_events [e] <> CheckNone ->
     check_events (pre ++ e :: post) = check_events [e]) /\
  (forall evs now path_exists p r,
     check_events evs <> CheckNone ->
     snd (check_iter evs now path_exists p r) = r /\
     active (snd (fst (check_iter evs now path_exists p r))) =
       (match check_events evs with CheckQuit => false | _ => active p end)).
Proof.
  split.
  - intros pre e post Hpre He. induction Hpre as [|e0 pre H0 _ IH].
    + simpl. destruct e as [|[| |]|]; simpl in *; try reflexivity;
        exfalso; apply He; reflexivity.
    + simpl. destruct e0 as [|[| |]|]; simpl in H0; try discriminate H0; exact IH.
  - intros evs now path_exists p r H. unfold check_iter.
    destruct (check_events evs); [split; reflexivity|split; reflexivity|congruence].
Qed.

Lemma check_first_key_decides_witness :
  check_events [OTHER_EVENT; KEYDOWN K_OTHER; KEYDOWN K_SPACE; KEYDOWN K_ESCAPE] = CheckTrigger /\
  active (snd (fst (check_iter [OTHER_EVENT; QUIT] 5%Q true p_on receiver_init))) = false.
Proof.
  split.
  - exact (proj1 check_first_key_decides [OTHER_EVENT; KEYDOWN K_OTHER] (KEYDOWN K_SPACE)
             [KEYDOWN K_ESCAPE] (ltac:(repeat constructor)) (ltac:(discriminate))).
  - exact (proj2 (proj2 check_first_key_decides [OTHER_EVENT; QUIT] 5%Q true p_on receiver_init
             (ltac:(discriminate)))).
Defined.



(* ================================================================== *)
(** * Server properties *)

Module ServerFacts.
Import Server.

(** C1, refuted. A connection whose welcome [send] raises is still in the
    registry after [handle_client]: it was appended before the send, and the
    exception is swallowed. *)
Lemma failed_welcome_still_registered :
  ~ (forall dumps iso c s,
       ~ In c (clients (fst (handle_client dumps false iso c s)))).
Proof.
  intro H.
  apply (H (fun _ => EmptyString) "2025-01-01T12:00:00"%string
           (mk_client 7 "192.168.1.20") server_init).
  simpl. left. reflexivity.
Qed.

(** C1, as the code does it. [handle_client] first appends the connection
    to [clients], then sends a WelcomeRecord carrying the current
    [pir_state]; whether that send succeeds or not, the connection stays
    registered and no other server state changes. *)
Theorem handle_client_registers_then_welcomes : forall dumps ok iso c s,
  let '(s', ev) := handle_client dumps ok iso c s in
  clients s' = clients s ++ [c] /\
  ev = [EvAppend c;
        EvSend (client_socket c) (dumps (welcome_msg iso (pir_state s)) ++ nl) ok] /\
  pir_state s' = pir_state s /\ motion_count s' = motion_count s /\
  last_state_change s' = last_state_change s.
Proof. intros. simpl. repeat split. Qed.

Lemma monitor_tick_counts : forall dumps fails cur now iso s m,
  let '(s', m', _) := monitor_tick dumps fails cur now iso s m in
  motion_count s' = (if negb (cur =? previous_state m) && (cur =? 1)
                     then motion_count s + 1 else motion_count s) /\
  previous_state m' = cur.
Proof.
  intros. unfold monitor_tick.
  destruct (cur =? previous_state m) eqn:E; simpl;
    [apply Z.eqb_eq in E|];
    destruct (clients s) as [|c0 cs];
    try (destruct (broadcast_to_clients fails _ (c0 :: cs)) as [cls' ev]);
    simpl; try (destruct (cur =? 1)); auto.
Qed.

Lemma run_app : forall dumps pre post s m,
  run dumps (pre ++ post) s m =
  let '(s1, m1, ev1) := run dumps pre s m in
  let '(s2, m2, ev2) := run dumps post s1 m1 in
  (s2, m2, ev1 ++ ev2).
Proof.
  intros dumps pre. induction pre as [|i pre IH]; intros post s m;
    cbn -[handle_client monitor_tick].
  - destruct (run dumps post s m) as [[s2 m2] ev2]. reflexivity.
  - destruct i as [fails rd now iso|c ok iso].
    + destruct (monitor_tick dumps fails rd now iso s m) as [[s1 m1] ev1].
      rewrite IH. destruct (run dumps pre s1 m1) as [[s2 m2] ev2].
      destruct (run dumps post s2 m2) as [[s3 m3] ev3].
      simpl. rewrite app_assoc. reflexivity.
    + destruct (handle_client dumps ok iso c s) as [s1 ev1].
      rewrite IH. destruct (run dumps pre s1 m) as [[s2 m2] ev2].
      destruct (run dumps post s2 m2) as [[s3 m3] ev3].
      simpl. rewrite app_assoc. reflexivity.
Qed.

Lemma last_cons : forall (l : list Z) x d, last (x :: l) d = last l x.
Proof.
  induction l as [|y l IH]; intros x d; [reflexivity|].
  change (last (y :: l) d = last (y :: l) x). destruct l; [reflexivity|].
  rewrite !IH. reflexivity.
Qed.

Lemma last_in01 : forall l d,
  Forall (fun x => x = 0 \/ x = 1) l -> d = 0 \/ d = 1 ->
  last l d = 0 \/ last l d = 1.
Proof.
  induction l as [|x l IH]; intros d Hl Hd; [exact Hd|].
  inversion Hl as [|? ? Hx Hl']; subst.
  rewrite last_cons. exact (IH x Hl' Hx).
Qed.

(** The monitor's [previous_state] is the last reading, and [motion_count]
    never decreases, over any interleaving of ticks and accepts. *)
Lemma run_prev_count : forall dumps ins s m,
  let '(s', m', _) := run dumps ins s m in
  previous_state m' = last (readings ins) (previous_state m) /\
  motion_count s <= motion_count s'.
Proof.
  intros dumps ins. induction ins as [|i ins IH]; intros s m;
    cbn -[handle_client monitor_tick].
  - split; [reflexivity | lia].
  - destruct i as [fails rd now iso|c ok iso].
    + pose proof (monitor_tick_counts dumps fails rd now iso s m) as Ht.
      destruct (monitor_tick dumps fails rd now iso s m) as [[s1 m1] ev1].
      specialize (IH s1 m1).
      destruct (run dumps ins s1 m1) as [[s2 m2] ev2].
      destruct Ht as [Hc Hp]. destruct IH as [IHp IHc].
      split.
      * rewrite IHp, Hp, last_cons. reflexivity.
      * destruct (negb (rd =? previous_state m) && (rd =? 1)); lia.
    + destruct (handle_client dumps ok iso c s) as [s1 ev1] eqn:Eh.
      assert (Hm : motion_count s1 = motion_count s)
        by (unfold handle_client in Eh; injection Eh as <- _; reflexivity).
      specialize (IH s1 m). destruct (run dumps ins s1 m) as [[s2 m2] ev2].
      destruct IH as [IHp IHc]. split; [exact IHp | lia].
Qed.

(** C2. Over any run of the server from its start (ticks interleaved with
    accepted connections), a tick increments [motion_count] by one exactly
    when the previous reading was 0 (0 before the first tick) and the
    current one is 1, and leaves it unchanged otherwise, provided the
    sensor reads 0 or 1; [motion_count] never decreases. *)
Theorem motion_count_rising_edges :
  (forall dumps pre fails r now iso,
     Forall (fun x => x = 0 \/ x = 1) (readings pre) -> r = 0 \/ r = 1 ->
     let '(s, m, _) := run dumps pre server_init monitor_init in
     let '(s', _, _) := monitor_tick dumps fails r now iso s m in
     motion_count s' =
     motion_count s + (if (last (readings pre) 0 =? 0) && (r =? 1) then 1 else 0)) /\
  (forall dumps pre post,
     motion_count (fst (fst (run dumps pre server_init monitor_init)))
     <= motion_count (fst (fst (run dumps (pre ++ post) server_init monitor_init)))).
Proof.
  split.
  - intros dumps pre fails r now iso Hpre Hr.
    pose proof (run_prev_count dumps pre server_init monitor_init) as Hrun.
    destruct (run dumps pre server_init monitor_init) as [[s m] ev].
    destruct Hrun as [Hp _].
    pose proof (monitor_tick_counts dumps fails r now iso s m) as Ht.
    destruct (monitor_tick dumps fails r now iso s m) as [[s' m'] ev'].
    destruct Ht as [Hc _]. rewrite Hc, Hp. simpl.
    assert (Hl : last (readings pre) 0 = 0 \/ last (readings pre) 0 = 1).
    { apply last_in01; [exact Hpre | left; reflexivity]. }
    destruct Hl as [-> | ->]; destruct Hr as [-> | ->]; simpl; lia.
  - intros dumps pre post. rewrite run_app.
    destruct (run dumps pre server_init monitor_init) as [[s1 m1] ev1].
    pose proof (run_prev_count dumps post s1 m1) as H.
    destruct (run dumps post s1 m1) as [[s2 m2] ev2]. simpl. exact (proj2 H).
Qed.

Lemma client_eqb_spec : forall a b, client_eqb a b = true <-> a = b.
Proof.
  intros [sa aa] [sb ab]. unfold client_eqb. simpl.
  rewrite andb_true_iff, Nat.eqb_eq, String.eqb_eq.
  split; [intros [-> ->]; reflexivity | intro H; injection H; auto].
Qed.

Lemma existsb_client_In : forall c l, existsb (client_eqb c) l = true <-> In c l.
Proof.
  intros c l. rewrite existsb_exists. split.
  - intros [x [Hx He]]. apply client_eqb_spec in He. subst. exact Hx.
  - intro H. exists c. split; [exact H | apply client_eqb_spec; reflexivity].
Qed.

Lemma filter_filter_and : forall (f g : client -> bool) l,
  filter f (filter g l) = filter (fun x => g x && f x) l.
Proof.
  intros f g l. induction l as [|x l IH]; simpl; [reflexivity|].
  destruct (g x); simpl; [destruct (f x); simpl|]; rewrite IH; reflexivity.
Qed.

Lemma send_loop_spec : forall fails payload cls,
  send_loop fails payload cls =
  (filter (fun c => fails (client_socket c)) cls,
   map (fun c => EvSend (client_socket c) payload (negb (fails (client_socket c)))) cls).
Proof.
  intros fails payload cls. induction cls as [|c cls IH]; simpl; [reflexivity|].
  rewrite IH. destruct (fails (client_socket c)); reflexivity.
Qed.

Lemma remove_first_nodup : forall c l,
  NoDup l -> remove_first c l = filter (fun x => negb (client_eqb x c)) l.
Proof.
  intros c l Hl. induction Hl as [|x l Hx Hl IH]; simpl; [reflexivity|].
  destruct (client_eqb x c) eqn:E; simpl.
  - apply client_eqb_spec in E. subst x. symmetry.
    apply forallb_filter_id, forallb_forall. intros y Hy.
    destruct (client_eqb y c) eqn:Ey; [|reflexivity].
    apply client_eqb_spec in Ey. subst. contradiction.
  - rewrite IH. reflexivity.
Qed.

(** [remove_loop] removes and closes every listed connection once. *)
Lemma remove_loop_spec : forall d cls,
  NoDup d -> NoDup cls -> incl d cls ->
  remove_loop d cls =
  (filter (fun x => negb (existsb (client_eqb x) d)) cls,
   flat_map (fun c => [EvRemove c; EvClose (client_socket c)]) d).
Proof.
  intros d. induction d as [|c d IH]; intros cls Hd Hcls Hinc; simpl.
  - rewrite filter_true. reflexivity.
  - inversion Hd as [|? ? Hc Hd']; subst.
    assert (Hin : existsb (client_eqb c) cls = true)
      by (apply existsb_client_In, Hinc; left; reflexivity).
    rewrite Hin, remove_first_nodup by exact Hcls.
    rewrite IH.
    + rewrite filter_filter_and. f_equal. apply filter_ext. intro x.
      destruct (client_eqb x c) eqn:E; simpl; [reflexivity|].
      destruct (existsb (client_eqb x) d); reflexivity.
    + exact Hd'.
    + apply NoDup_filter. exact Hcls.
    + intros y Hy. apply filter_In. split.
      * apply Hinc. right. exact Hy.
      * destruct (client_eqb y c) eqn:E; [|reflexivity].
        apply client_eqb_spec in E. subst. contradiction.
Qed.

Lemma existsb_filter_self : forall (f : client -> bool) cls x,
  In x cls -> existsb (client_eqb x) (filter f cls) = f x.
Proof.
  intros f cls x Hx. destruct (f x) eqn:Ef.
  - apply existsb_client_In, filter_In. auto.
  - apply not_true_is_false. intro H.
    apply existsb_client_In, filter_In in H. destruct H as [_ H].
    rewrite Ef in H. discriminate.
Qed.

(** C7. With distinct registry entries, a broadcast sends the message to
    every registered connection in order; the connections whose [send]
    raised, and only those, are then removed and closed; the other
    entries stay, in their order. The broadcast always returns normally. *)
Theorem broadcast_drops_only_failed : forall fails message cls,
  NoDup cls ->
  broadcast_to_clients fails message cls =
  (filter (fun c => negb (fails (client_socket c))) cls,
   map (fun c => EvSend (client_socket c) message (negb (fails (client_socket c)))) cls
   ++ flat_map (fun c => [EvRemove c; EvClose (client_socket c)])
        (filter (fun c => fails (client_socket c)) cls)).
Proof.
  intros fails message cls Hnd. unfold broadcast_to_clients.
  rewrite send_loop_spec, remove_loop_spec.
  - f_equal. apply filter_ext_in. intros x Hx.
    rewrite existsb_filter_self by exact Hx. reflexivity.
  - apply NoDup_filter. exact Hnd.
  - exact Hnd.
  - intros y Hy. apply filter_In in Hy. apply Hy.
Qed.

Lemma broadcast_drops_only_failed_witness :
  broadcast_to_clients (fun sock => Nat.eqb sock 2) "m"%string
    [mk_client 1 "a"; mk_client 2 "b"; mk_client 3 "c"]
  = ([mk_client 1 "a"; mk_client 3 "c"],
     [EvSend 1 "m" true; EvSend 2 "m" false; EvSend 3 "m" true;
      EvRemove (mk_client 2 "b"); EvClose 2]).
Proof.
  rewrite broadcast_drops_only_failed.
  - reflexivity.
  - repeat constructor; simpl; intuition discriminate.
Defined.


Lemma remove_loop_events : forall d cls,
  forallb is_remove_or_close (snd (remove_loop d cls)) = true.
Proof.
  intros d. induction d as [|c d IH]; intros cls; simpl; [reflexivity|].
  destruct (existsb (client_eqb c) cls); [|apply IH].
  specialize (IH (remove_first c cls)).
  destruct (remove_loop d (remove_first c cls)) as [cls' ev]. simpl in *. exact IH.
Qed.

(** C6. With an empty registry a tick neither serialises nor sends
    anything. Otherwise it calls [json.dumps] once, on the tick's
    StateRecord, then sends the same bytes [json.dumps(data) + "\n"] to every
    registered connection, in registry order; the remaining actions only
    remove and close connections. *)
Theorem tick_fan_out_identical : forall dumps fails cur now iso s m,
  let '(s', _, ev) := monitor_tick dumps fails cur now iso s m in
  (clients s = [] -> ev = []) /\
  (clients s <> [] ->
     exists data rest,
       ev = EvDumps data
            :: map (fun c => EvSend (client_socket c) (dumps data ++ nl)
                               (negb (fails (client_socket c)))) (clients s)
            ++ rest /\
       forallb is_remove_or_close rest = true /\
       exists tsc, data = state_record iso cur (motion_count s') tsc (length (clients s))).
Proof.
  intros. unfold monitor_tick.
  destruct (negb (cur =? previous_state m)); destruct (clients s) as [|c cs] eqn:Ec;
    unfold broadcast_to_clients; rewrite ?send_loop_spec.
  all: try (split; [reflexivity | intro H; exfalso; apply H; reflexivity]).
  all: pose proof (remove_loop_events
                     (filter (fun c0 => fails (client_socket c0)) (c :: cs)) (c :: cs)) as Hr.
  all: destruct (remove_loop (filter (fun c0 => fails (client_socket c0)) (c :: cs))
                   (c :: cs)) as [cls' ev2].
  all: split; [intro H; discriminate H|]; intros _.
  all: eexists; exists ev2; split; [reflexivity|]; split; [exact Hr|].
  all: eexists; reflexivity.
Qed.

Lemma tick_fan_out_identical_witness :
  exists data rest,
    snd (monitor_tick (fun _ => "{}"%string) (fun _ => false) 1 1 "t"%string
           (mk_server [mk_client 1 "a"; mk_client 2 "b"] 0 0 0) monitor_init)
    = EvDumps data :: [EvSend 1 ("{}" ++ nl) true; EvSend 2 ("{}" ++ nl) true] ++ rest.
Proof.
  pose proof (tick_fan_out_identical (fun _ => "{}"%string) (fun _ => false) 1 1 "t"%string
                (mk_server [mk_client 1 "a"; mk_client 2 "b"] 0 0 0) monitor_init) as H.
  destruct (monitor_tick (fun _ => "{}"%string) (fun _ => false) 1 1 "t"%string
              (mk_server [mk_client 1 "a"; mk_client 2 "b"] 0 0 0) monitor_init)
    as [[s' m'] ev].
  destruct H as [_ H]. destruct (H ltac:(discriminate)) as [data [rest [Hev _]]].
  exists data, rest. exact Hev.
Defined.

Lemma motion_count_rising_edges_witness :
  let pre := [Tick (fun _ => false) 0 1%Q "t"%string; Tick (fun _ => false) 1 2%Q "t"%string;
              Accept (mk_client 5 "h"%string) true "t"%string; Tick (fun _ => false) 0 3%Q "t"%string] in
  let '(s, m, _) := run (fun _ => EmptyString) pre server_init monitor_init in
  let '(s', _, _) := monitor_tick (fun _ => EmptyString) (fun _ => false) 1 4%Q "t"%string s m in
  motion_count s' =
  motion_count s + (if (last (readings pre) 0 =? 0) && (1 =? 1) then 1 else 0).
Proof.
  exact (proj1 motion_count_rising_edges (fun _ => EmptyString)
           [Tick (fun _ => false) 0 1%Q "t"%string; Tick (fun _ => false) 1 2%Q "t"%string;
            Accept (mk_client 5 "h"%string) true "t"%string; Tick (fun _ => false) 0 3%Q "t"%string]
           (fun _ => false) 1 4%Q "t"%string
           ltac:(simpl; repeat apply Forall_cons; try apply Forall_nil; lia)
           ltac:(right; reflexivity)).
Defined.

End ServerFacts.

(** * Safety of the server loop *)

Module ServerSafety.
Import Server.
Import ServerFacts.


Lemma monitor_tick_pir : forall dumps fails cur now iso s m,
  pir_state (fst (fst (monitor_tick dumps fails cur now iso s m))) = cur.
Proof.
  intros. unfold monitor_tick.
  destruct (negb (cur =? previous_state m)); destruct (clients s) as [|c0 cs];
    try (destruct (broadcast_to_clients fails _ (c0 :: cs)) as [cls' ev]); reflexivity.
Qed.

Lemma run_pir_state : forall dumps ins s m,
  pir_state (fst (fst (run dumps ins s m))) = last (readings ins) (pir_state s).
Proof.
  intros dumps ins. induction ins as [|i ins IH]; intros s m;
    cbn -[handle_client monitor_tick]; [reflexivity|].
  destruct i as [fails rd now iso|c ok iso].
  - pose proof (monitor_tick_pir dumps fails rd now iso s m) as Hp.
    destruct (monitor_tick dumps fails rd now iso s m) as [[s1 m1] ev1].
    specialize (IH s1 m1). destruct (run dumps ins s1 m1) as [[s2 m2] ev2].
    rewrite last_cons. cbn [fst] in *. rewrite IH, Hp. reflexivity.
  - specialize (IH (set_clients (clients s ++ [c]) s) m).
    change (handle_client dumps ok iso c s) with
      (set_clients (clients s ++ [c]) s,
       [EvAppend c; EvSend (client_socket c)
          (dumps (welcome_msg iso (pir_state s)) ++ String "010" EmptyString) ok]).
    cbn -[run]. destruct (run dumps ins (set_clients (clients s ++ [c]) s) m) as [[s2 m2] ev2].
    exact IH.
Qed.

(** X8. The WelcomeRecord sent to a newly accepted connection carries the
    latest sensor reading: the reading of the last tick before the accept,
    or 0 when no tick has run yet. *)
(** X8. The WelcomeRecord sent to a newly accepted connection carries the
    latest sensor reading: the reading of the last tick before the accept,
    or 0 when no tick has run yet. *)
Theorem welcome_carries_latest_reading : forall dumps pre c ok iso post,
  pir_state (fst (fst (run dumps pre server_init monitor_init))) = last (readings pre) 0 /\
  In (EvSend (client_socket c) (dumps (welcome_msg iso (last (readings pre) 0)) ++ nl) ok)
     (snd (run dumps (pre ++ Accept c ok iso :: post) server_init monitor_init)).
Proof.
  intros dumps pre c ok iso post.
  pose proof (run_pir_state dumps pre server_init monitor_init) as Hp.
  split; [exact Hp|].
  rewrite run_app.
  destruct (run dumps pre server_init monitor_init) as [[s1 m1] ev1].
  simpl in Hp.
  assert (Heq : run dumps (Accept c ok iso :: post) s1 m1 =
    let '(s2, m2, ev2) := run dumps post (set_clients (clients s1 ++ [c]) s1) m1 in
    (s2, m2, [EvAppend c; EvSend (client_socket c)
                (dumps (welcome_msg iso (pir_state s1)) ++ nl) ok] ++ ev2))
    by reflexivity.
  rewrite Heq.
  destruct (run dumps post (set_clients (clients s1 ++ [c]) s1) m1) as [[s2 m2] ev2].
  cbn [snd]. rewrite <- Hp. apply in_or_app. right. apply in_or_app. left.
  right. left. reflexivity.
Qed.

















End ServerSafety.

(* ================================================================== *)
(** * Discovery properties *)

Module DiscoveryFacts.
Import Discovery.

Lemma scan_spec : forall prefix ce hosts,
  let '(res, probed) := scan prefix ce hosts in
  (res = None /\ probed = map (host_ip prefix) hosts /\
   Forall (fun i => ce (host_ip prefix i) <> ConnectCode 0) hosts) \/
  (exists pre i post,
     hosts = pre ++ i :: post /\
     Forall (fun j => ce (host_ip prefix j) <> ConnectCode 0) pre /\
     ce (host_ip prefix i) = ConnectCode 0 /\
     res = Some (host_ip prefix i) /\ probed = map (host_ip prefix) (pre ++ [i])).
Proof.
  intros prefix ce hosts. induction hosts as [|h hosts IH]; simpl.
  - left. auto.
  - destruct (ce (host_ip prefix h)) as [[|z|z]|] eqn:E;
      [right; exists [], h, hosts; simpl; repeat split; auto|..];
      assert (Hh : ce (host_ip prefix h) <> ConnectCode 0) by (rewrite E; discriminate);
      destruct (scan prefix ce hosts) as [res probed];
      (destruct IH as [[Hr [Hp Hall]] | [pre [i [post [Heq [Hpre [Hi [Hr Hp]]]]]]]];
       [ left; split; [exact Hr|]; split; [rewrite Hp; reflexivity|];
         constructor; assumption
       | right; exists (h :: pre), i, post; subst; simpl;
         repeat split; auto; constructor; assumption ]).
Qed.

(** C9, refuted. When the lookup of the local address raises (no route to
    the outside, e.g. a LAN without gateway), [find_raspberry_pi] returns
    [None] although every host of the machine's /24 accepts. *)
Lemma discover_unroutable_not_found :
  ~ (forall ip route_ok ce,
       fst (find_raspberry_pi (if route_ok : bool then Some ip else None) ce) = None <->
       Forall (fun i => ce (host_ip (network_prefix ip) i) <> ConnectCode 0)
         (seq 1 254)).
Proof.
  intro H.
  destruct (H "192.168.4.10"%string false (fun _ => ConnectCode 0)) as [H1 _].
  specialize (H1 eq_refl). change (seq 1 254) with (1 :: seq 2 253)%nat in H1.
  apply Forall_inv in H1. apply H1. reflexivity.
Qed.

(** C9, as the code does it. When the local address is known,
    [find_raspberry_pi] probes [prefix.1], ..., [prefix.254] in order,
    stops at the first whose [connect_ex] returns 0 and returns it; it
    returns [None] exactly when none of the 254 does, after probing them
    all. When the local address cannot be determined it returns [None]
    and probes nothing. *)
Theorem discover_first_accepting :
  (forall local_ip ce,
     let prefix := network_prefix local_ip in
     let '(res, probed) := find_raspberry_pi (Some local_ip) ce in
     ((res = None /\ probed = map (host_ip prefix) (seq 1 254) /\
       Forall (fun i => ce (host_ip prefix i) <> ConnectCode 0) (seq 1 254)) \/
      (exists pre i post,
         seq 1 254 = pre ++ i :: post /\
         Forall (fun j => ce (host_ip prefix j) <> ConnectCode 0) pre /\
         ce (host_ip prefix i) = ConnectCode 0 /\
         res = Some (host_ip prefix i) /\ probed = map (host_ip prefix) (pre ++ [i]))) /\
     (res = None <->
      Forall (fun i => ce (host_ip prefix i) <> ConnectCode 0) (seq 1 254))) /\
  (forall ce, find_raspberry_pi None ce = (None, [])).
Proof.
  split; [|reflexivity].
  intros local_ip ce. unfold find_raspberry_pi.
  pose proof (scan_spec (network_prefix local_ip) ce (seq 1 254)) as H.
  destruct (scan (network_prefix local_ip) ce (seq 1 254)) as [res probed].
  split; [exact H|].
  destruct H as [[Hr [_ Hall]] | [pre [i [post [Heq [_ [Hi [Hr _]]]]]]]].
  - split; [intros _; exact Hall | intros _; exact Hr].
  - split; [rewrite Hr; discriminate|].
    intro Hall. rewrite Heq in Hall. apply Forall_app in Hall.
    destruct Hall as [_ Hall]. inversion Hall as [|? ? Hx _]. contradiction.
Qed.

Lemma discover_first_accepting_witness :
  fst (find_raspberry_pi (Some "192.168.1.37"%string)
         (fun ip => if String.eqb ip "192.168.1.3" then ConnectCode 0
                    else ConnectCode 111)) <> None.
Proof.
  pose proof (proj1 discover_first_accepting "192.168.1.37"%string
                (fun ip => if String.eqb ip "192.168.1.3" then ConnectCode 0
                           else ConnectCode 111)) as H.
  unfold find_raspberry_pi in *.
  destruct (scan _ _ (seq 1 254)) as [res probed].
  destruct H as [_ Hiff]. simpl. intro Hn. apply Hiff in Hn.
  change (seq 1 254) with (1 :: 2 :: 3 :: seq 4 251)%nat in Hn.
  apply Forall_inv_tail, Forall_inv_tail, Forall_inv in Hn.
  apply Hn. vm_compute. reflexivity.
Defined.

End DiscoveryFacts.

(** * Connecting without an address *)

Module ConnectFacts.
Import Discovery.

Lemma str_nat_aux_nonempty : forall f n acc, acc <> EmptyString -> str_nat_aux f n acc <> EmptyString.
Proof.
  induction f as [|f IH]; intros n acc H; simpl; [exact H|].
  destruct (n <? 10)%nat; [discriminate|apply IH; discriminate].
Qed.

Lemma host_ip_nonempty : forall prefix i, host_ip prefix i <> EmptyString.
Proof.
  intros prefix i. unfold host_ip, str_nat.
  destruct prefix; [|discriminate]. simpl.
  destruct (i <? 10)%nat; [discriminate|apply str_nat_aux_nonempty; discriminate].
Qed.

Lemma scan_none : forall prefix ce hosts,
  Forall (fun i => ce (host_ip prefix i) <> ConnectCode 0) hosts ->
  fst (scan prefix ce hosts) = None.
Proof.
  intros prefix ce hosts H. induction H as [|h hosts Hh _ IH]; [reflexivity|].
  simpl. destruct (ce (host_ip prefix h)) as [[|z|z]|] eqn:E;
    try (exfalso; exact (Hh eq_refl));
    destruct (scan prefix ce hosts) as [res probed]; exact IH.
Qed.

Lemma scan_first : forall prefix ce pre i post,
  Forall (fun j => ce (host_ip prefix j) <> ConnectCode 0) pre ->
  ce (host_ip prefix i) = ConnectCode 0 ->
  fst (scan prefix ce (pre ++ i :: post)) = Some (host_ip prefix i).
Proof.
  intros prefix ce pre i post H Hi. induction H as [|h pre Hh _ IH].
  - simpl. rewrite Hi. reflexivity.
  - simpl. destruct (ce (host_ip prefix h)) as [[|z|z]|] eqn:E;
      try (exfalso; exact (Hh eq_refl));
      destruct (scan prefix ce (pre ++ i :: post)) as [res probed]; exact IH.
Qed.

(** X4. [connect] without an address (or with the empty one) relies on
    [find_raspberry_pi]: it fails without any connection attempt when the
    local address is unknown or when no host of the /24 accepts; otherwise it
    tries the first accepting host only and, on success, starts the receive
    thread with an empty buffer and [previous_state = 0]. *)
(** X4. [connect] without an address (or with the empty one) relies on
    [find_raspberry_pi]: it fails without any connection attempt when the
    local address is unknown or when no host of the /24 accepts; otherwise it
    tries the first accepting host only and, on success, starts the receive
    thread with an empty buffer and [previous_state = 0]. *)
Theorem connect_without_address : forall ip local_ip ce ok r,
  (ip = None \/ ip = Some EmptyString) ->
  (local_ip = None -> connect ip local_ip ce ok r = (false, r)) /\
  (forall l, local_ip = Some l ->
     let prefix := network_prefix l in
     (Forall (fun i => ce (host_ip prefix i) <> ConnectCode 0) (seq 1 254) ->
      connect ip local_ip ce ok r = (false, r)) /\
     (forall pre i post, seq 1 254 = pre ++ i :: post ->
        Forall (fun j => ce (host_ip prefix j) <> ConnectCode 0) pre ->
        ce (host_ip prefix i) = ConnectCode 0 ->
        connect ip local_ip ce ok r =
        if ok (host_ip prefix i)
        then (true, mk_receiver true (motion_detected r) (last_motion_time r)
                      (running r) EmptyString (JNum 0))
        else (false, r))).
Proof.
  intros ip local_ip ce ok r Hip.
  assert (Hc : connect ip local_ip ce ok r =
               match fst (find_raspberry_pi local_ip ce) with
               | None | Some EmptyString => (false, r)
               | Some a => if ok a
                           then (true, mk_receiver true (motion_detected r) (last_motion_time r)
                                         (running r) EmptyString (JNum 0))
                           else (false, r)
               end) by (destruct Hip as [->| ->]; reflexivity).
  rewrite Hc. split.
  - intros ->. reflexivity.
  - intros l ->. cbv zeta. split.
    + intro Hall. unfold find_raspberry_pi.
      rewrite (scan_none _ _ _ Hall). reflexivity.
    + intros pre i post Hseq Hpre Hi. unfold find_raspberry_pi. rewrite Hseq.
      rewrite (scan_first _ _ _ _ _ Hpre Hi).
      destruct (host_ip (network_prefix l) i) eqn:Eh; [exfalso; exact (host_ip_nonempty _ _ Eh)|].
      reflexivity.
Qed.

Lemma connect_without_address_witness :
  connect (Some EmptyString) (Some "192.168.1.37"%string) accepts_host_3 (fun _ => true) receiver_init =
  (true, mk_receiver true false 0 true EmptyString (JNum 0)).
Proof.
  rewrite (proj2 (proj2 (connect_without_address (Some EmptyString) (Some "192.168.1.37"%string)
             accepts_host_3 (fun _ => true) receiver_init (or_intror eq_refl)) _ eq_refl)
             [1;2]%nat 3%nat (seq 4 251)).
  - reflexivity.
  - reflexivity.
  - repeat constructor; intro H; vm_compute in H; discriminate H.
  - vm_compute. reflexivity.
Defined.


Lemma string_of_list_ascii_snoc : forall l x,
  string_of_list_ascii (l ++ [x]) = (string_of_list_ascii l ++ String x EmptyString)%string.
Proof. induction l as [|y l IH]; intros x; simpl; [reflexivity|now rewrite IH]. Qed.

Lemma split_on_nodot : forall d cur,
  ~ In "."%char (list_ascii_of_string d) ->
  split_on "." d cur = [string_of_list_ascii (rev cur ++ list_ascii_of_string d)].
Proof.
  induction d as [|x d IH]; intros cur Hd; simpl.
  - now rewrite app_nil_r.
  - destruct (Ascii.eqb_spec x "."%char) as [->|Hx].
    + exfalso. apply Hd. left. reflexivity.
    + rewrite IH by (intro H; apply Hd; right; exact H). simpl.
      now rewrite <- app_assoc.
Qed.

Lemma split_on_last_dot : forall a d cur,
  ~ In "."%char (list_ascii_of_string d) ->
  removelast (split_on "." (a ++ String "." d) cur) <> [] /\
  join_dot (removelast (split_on "." (a ++ String "." d) cur)) =
    (string_of_list_ascii (rev cur) ++ a)%string.
Proof.
  induction a as [|x a IH]; intros d cur Hd; simpl.
  - rewrite split_on_nodot by exact Hd. simpl.
    split; [discriminate|]. now rewrite string_app_nil_r.
  - destruct (Ascii.eqb_spec x "."%char) as [->|Hx].
    + destruct (IH d [] Hd) as [Hne Hj].
      set (L := split_on "." (a ++ String "." d) []) in *.
      assert (HL : L <> []) by (intro E; rewrite E in Hne; apply Hne; reflexivity).
      destruct L as [|y L]; [contradiction|].
      change (removelast (string_of_list_ascii (rev cur) :: y :: L))
        with (string_of_list_ascii (rev cur) :: removelast (y :: L)).
      split; [discriminate|].
      destruct (removelast (y :: L)) as [|z M] eqn:E; [contradiction|].
      change (join_dot (string_of_list_ascii (rev cur) :: z :: M))
        with (string_of_list_ascii (rev cur) ++ "." ++ join_dot (z :: M))%string.
      rewrite Hj. reflexivity.
    + destruct (IH d (x :: cur) Hd) as [Hne Hj]. split; [exact Hne|].
      rewrite Hj. simpl. rewrite string_of_list_ascii_snoc.
      rewrite string_app_assoc. reflexivity.
Qed.

(** X10. [network_prefix] keeps the local address up to and including its
    last dot, so for a local address [a.d] the scan probes [a.1] to [a.254];
    for an address without a dot the prefix is a lone dot. *)
(** X10. [network_prefix] keeps the local address up to and including its
    last dot, so for a local address [a.d] the scan probes [a.1] to [a.254];
    for an address without a dot the prefix is a lone dot. *)
Theorem network_prefix_last_dot : forall a d,
  ~ In "."%char (list_ascii_of_string d) ->
  (network_prefix (a ++ "." ++ d)%string = (a ++ ".")%string /\
   forall i, host_ip (network_prefix (a ++ "." ++ d)%string) i = (a ++ "." ++ str_nat i)%string) /\
  network_prefix d = "."%string.
Proof.
  intros a d Hd.
  assert (Hp : network_prefix (a ++ "." ++ d)%string = (a ++ ".")%string).
  { unfold network_prefix. destruct (split_on_last_dot a d [] Hd) as [_ Hj].
    change ("." ++ d)%string with (String "." d). rewrite Hj. reflexivity. }
  split; [split; [exact Hp|]|].
  - intros i. unfold host_ip. rewrite Hp, string_app_assoc. reflexivity.
  - unfold network_prefix. rewrite split_on_nodot by exact Hd. reflexivity.
Qed.

Lemma network_prefix_last_dot_witness :
  ~ In "."%char (list_ascii_of_string "37") /\
  host_ip (network_prefix "192.168.1.37") 5 = "192.168.1.5"%string.
Proof.
  assert (Hd : ~ In "."%char (list_ascii_of_string "37")).
  { simpl. intros [H|[H|[]]]; discriminate H. }
  split; [exact Hd|].
  exact (proj2 (proj1 (network_prefix_last_dot "192.168.1" "37" Hd)) 5%nat).
Defined.
End ConnectFacts.
